(** * LoanLink backend: session tokens, application lifecycle, notification fan-out

    A shallow embedding of the request handlers of the LoanLink server
    (the latest revision of the Express application) together with the
    parts of its collaborators the handlers rely on: the MongoDB driver
    (collections as lists of documents in natural order), the
    [jsonwebtoken] codec (tokens as symbolic signed payloads) and the
    host clock.

    Documents are finite maps from top-level field names to BSON values:
    scalars and arrays; embedded documents and dotted update paths are
    outside the modelled fragment. *)

From Stdlib Require Import ZArith String Ascii List Sorted Permutation Lia.
From Stdlib Require OrderedTypeEx.
From stdpp Require Import base option list gmap strings fin_maps pretty.

Local Open Scope string_scope.
Local Open Scope Z_scope.
Local Open Scope list_scope.

(** ** Values *)

(** An [ObjectId] is the number denoted by its 12 bytes. *)
Definition ObjectId := N.

(** The values a document field holds.  A JSON request body brings
    [VNull], [VBool], [VNum], [VStr] and arrays of them; [VDate]
    (milliseconds since the epoch) comes from [new Date()] and [VOid] from
    the driver. *)
Inductive value : Type :=
| VNull
| VBool (b : bool)
| VNum (n : Z)
| VStr (s : string)
| VDate (ms : Z)
| VOid (o : ObjectId)
| VArr (l : list value).

Fixpoint value_eq_dec (a b : value) {struct a} : {a = b} + {a <> b}.
Proof.
  decide equality; try apply Z.eq_dec; try apply N.eq_dec; try apply string_dec;
    try apply bool_dec.
  revert l0. induction l as [|x l IH]; intros [|y l0].
  - left; reflexivity.
  - right; discriminate.
  - right; discriminate.
  - destruct (value_eq_dec x y) as [->|Hn].
    + destruct (IH l0) as [->|Hn]; [left; reflexivity|right; congruence].
    + right; congruence.
Defined.

#[global] Instance value_eqdec : EqDecision value := value_eq_dec.

(** Induction on values, with the elements of an array as premises. *)
Fixpoint value_induction (P : value -> Prop)
    (Hnull : P VNull) (Hbool : forall b, P (VBool b)) (Hnum : forall n, P (VNum n))
    (Hstr : forall s, P (VStr s)) (Hdate : forall ms, P (VDate ms))
    (Hoid : forall o, P (VOid o))
    (Harr : forall l, Forall P l -> P (VArr l)) (v : value) {struct v} : P v :=
  match v with
  | VNull => Hnull
  | VBool b => Hbool b
  | VNum n => Hnum n
  | VStr s => Hstr s
  | VDate ms => Hdate ms
  | VOid o => Hoid o
  | VArr l =>
      Harr l ((fix all (l : list value) : Forall P l :=
                 match l with
                 | [] => @List.Forall_nil value P
                 | x :: l' =>
                     @List.Forall_cons value P x l'
                       (value_induction P Hnull Hbool Hnum Hstr Hdate Hoid Harr x) (all l')
                 end) l)
  end.

(** A document (and a parsed JSON object): field name to value.  A field
    that is absent reads as [undefined], that is [None]. *)
Abbreviation doc := (gmap string value).

(** [undefined] in a document or a query sent to the server is serialised
    as BSON null (the driver's default, [ignoreUndefined: false]). *)
Definition bson (o : option value) : value := default VNull o.

(** ** JavaScript primitives used by the handlers *)

(** ToBoolean: [!x], [if (x)], [x || y], [a && b]. *)
Definition truthy (o : option value) : bool :=
  match o with
  | None | Some VNull => false
  | Some (VBool b) => b
  | Some (VNum n) => negb (n =? 0)%Z
  | Some (VStr s) => negb (String.eqb s EmptyString)
  | Some (VDate _) | Some (VOid _) | Some (VArr _) => true
  end.

(** [a || b] on a possibly undefined left operand and a defined right one. *)
Definition js_or (a : option value) (b : value) : value :=
  match a with
  | Some v => if truthy a then v else b
  | None => b
  end.

(** [a === 'literal']. *)
Definition strict_eq_str (a : option value) (lit : string) : bool :=
  bool_decide (a = Some (VStr lit)).

Definition hex_char (d : N) : ascii :=
  if (d <? 10)%N then ascii_of_N (48 + d) else ascii_of_N (87 + d).

Fixpoint hex_digits (n : nat) (x : N) (acc : string) : string :=
  match n with
  | O => acc
  | S n' => hex_digits n' (x / 16)%N (String (hex_char (x mod 16)%N) acc)
  end.

(** [ObjectId.prototype.toHexString]: 24 lower-case hexadecimal digits. *)
Definition toHexString (o : ObjectId) : string := hex_digits 24 o EmptyString.

Definition hex_digit (c : ascii) : option N :=
  let n := N_of_ascii c in
  if ((48 <=? n) && (n <=? 57))%N then Some (n - 48)%N
  else if ((97 <=? n) && (n <=? 102))%N then Some (n - 87)%N
  else if ((65 <=? n) && (n <=? 70))%N then Some (n - 55)%N
  else None.

Fixpoint hex_value (s : string) (acc : N) : option N :=
  match s with
  | EmptyString => Some acc
  | String c s' =>
      match hex_digit c with
      | Some d => hex_value s' (16 * acc + d)%N
      | None => None
      end
  end.

(** [new ObjectId(s)] on a string: accepted exactly when [s] is 24
    hexadecimal characters; anything else makes the constructor throw. *)
Definition ObjectId_of_string (s : string) : option ObjectId :=
  if (String.length s =? 24)%nat then hex_value s 0%N else None.

(** The part of the host the handlers observe but do not control. *)
Record host : Type := Host {
  (** [process.env.JWT_SECRET], [process.env.NODE_ENV], [process.env.VERCEL] *)
  JWT_SECRET : option string;
  NODE_ENV : option string;
  VERCEL : option string;
  (** ToString of the runtime on a number and on a Date (the latter
      depends on the time zone of the host) *)
  Number_toString : Z -> string;
  Date_toString : Z -> string;
  (** milliseconds that pass before the n-th effect of a run completes *)
  latency : nat -> nat;
  (** whether the n-th effect of a run, when it is a store call, is
      rejected by the store (network or server failure) *)
  fault : nat -> bool
}.

(** ToString of a defined value; an array is its elements joined by
    commas, a null element giving the empty string. *)
Fixpoint value_toString (h : host) (v : value) {struct v} : string :=
  match v with
  | VNull => "null"
  | VBool true => "true"
  | VBool false => "false"
  | VNum n => Number_toString h n
  | VStr s => s
  | VDate ms => Date_toString h ms
  | VOid o => toHexString o
  | VArr l =>
      String.concat ","
        (map (fun x => match x with
                       | VNull => EmptyString
                       | _ => value_toString h x
                       end) l)
  end.

(** ToString, as applied by a template literal to [${e}]. *)
Definition ToString (h : host) (o : option value) : string :=
  match o with
  | None => "undefined"
  | Some v => value_toString h v
  end.

(** ** Outcomes *)

Inductive error : Type :=
| BSONError                 (* new ObjectId(s) on a malformed string *)
| DuplicateKey              (* E11000: the _id is already in the collection *)
| InvalidId                 (* an array as _id *)
| ImmutableField            (* a $set that would change _id *)
| StoreFailure              (* the store rejected or never answered the call *)
| SignError (msg : string). (* jwt.sign refused its arguments *)

Inductive result (A : Type) : Type :=
| Ok (a : A)
| Throw (e : error).
Arguments Ok {A} a.
Arguments Throw {A} e.

(** ** The document store

    A collection is the list of its documents in natural (insertion)
    order.  Each operation returns its result together with the
    collection it leaves behind, also when it throws. *)

(** A filter [{k1: v1, ..., kn: vn}]: every condition must hold. *)
Abbreviation query := (list (string * value)).

(** A stored value [x] satisfies the equality condition [v] when it is
    [v], or is an array with [v] among its elements. *)
Definition matches_value (x v : value) : bool :=
  bool_decide (x = v)
  || match x with
     | VArr l => existsb (fun e => bool_decide (e = v)) l
     | _ => false
     end.

(** [{k: v}] selects the documents whose field [k] satisfies [v];
    [{k: null}] also selects those without the field. *)
Definition matches_field (d : doc) (kv : string * value) : bool :=
  match d !! kv.1 with
  | Some x => matches_value x kv.2
  | None => bool_decide (kv.2 = VNull)
  end.

Definition matches (q : query) (d : doc) : bool := forallb (matches_field d) q.

Definition find_docs (q : query) (c : list doc) : list doc := List.filter (matches q) c.

Definition find_first (q : query) (c : list doc) : option doc := List.find (matches q) c.

(** [{ projection: { email: 1 } }] keeps [_id] and the listed field. *)
Definition project (k : string) (d : doc) : doc :=
  filter (fun kv => kv.1 = "_id" \/ kv.1 = k) d.

Definition oid_of (d : doc) : N :=
  match d !! "_id" with
  | Some (VOid o) => o
  | _ => 0%N
  end.

(** The identifier the driver generates for a document that has none: an
    ObjectId that no document of the collection carries. *)
Definition fresh_ObjectId (c : list doc) : ObjectId :=
  N.succ (fold_right N.max 0%N (map oid_of c)).

Definition has_id (i : value) (c : list doc) : bool :=
  existsb (fun d => bool_decide (d !! "_id" = Some i)) c.

(** Insert of one document: an [_id] that is missing or null is
    generated, a supplied one must be new and not an array.  Returns the
    inserted id. *)
Definition insert_doc (d : doc) (c : list doc) : result value * list doc :=
  match d !! "_id" with
  | None | Some VNull =>
      let i := VOid (fresh_ObjectId c) in (Ok i, c ++ [<["_id" := i]> d])
  | Some (VArr _) => (Throw InvalidId, c)
  | Some i =>
      if has_id i c then (Throw DuplicateKey, c) else (Ok i, c ++ [d])
  end.

(** Ordered bulk insert: stops at the first document that fails and keeps
    those inserted before it. *)
Fixpoint insert_docs (ds : list doc) (c : list doc) : result (list value) * list doc :=
  match ds with
  | [] => (Ok [], c)
  | d :: ds' =>
      match insert_doc d c with
      | (Ok i, c') =>
          let (r, c'') := insert_docs ds' c' in
          (match r with Ok l => Ok (i :: l) | Throw e => Throw e end, c'')
      | (Throw e, c') => (Throw e, c')
      end
  end.

Record UpdateResult : Type := mkUpdateResult {
  matchedCount : nat;
  modifiedCount : nat
}.

(** [{ $set: upd }] applied to [d]: the fields of [upd] replace or extend
    those of [d]. *)
Definition apply_set (upd d : doc) : doc := upd ∪ d.

(** The server refuses a [$set] that would change [_id]. *)
Definition set_allowed (upd d : doc) : bool :=
  match upd !! "_id" with
  | None => true
  | Some i => bool_decide (d !! "_id" = Some i)
  end.

Definition changed (d' d : doc) : nat := if decide (d' = d) then 0%nat else 1%nat.

(** [updateOne(q, { $set: upd })]: the first matching document is
    updated; it counts as modified when the update changed it. *)
Fixpoint update_one (q : query) (upd : doc) (c : list doc) : result UpdateResult * list doc :=
  match c with
  | [] => (Ok (mkUpdateResult 0 0), [])
  | d :: c' =>
      if matches q d then
        if set_allowed upd d
        then (Ok (mkUpdateResult 1 (changed (apply_set upd d) d)), apply_set upd d :: c')
        else (Throw ImmutableField, d :: c')
      else
        let (r, c'') := update_one q upd c' in (r, d :: c'')
  end.

(** [updateMany(q, { $set: upd })]: every matching document is updated. *)
Fixpoint update_many (q : query) (upd : doc) (c : list doc) : result UpdateResult * list doc :=
  match c with
  | [] => (Ok (mkUpdateResult 0 0), [])
  | d :: c' =>
      if matches q d then
        if set_allowed upd d then
          let (r, c'') := update_many q upd c' in
          (match r with
           | Ok u => Ok (mkUpdateResult (S (matchedCount u))
                           (changed (apply_set upd d) d + modifiedCount u))
           | Throw e => Throw e
           end, apply_set upd d :: c'')
        else (Throw ImmutableField, d :: c')
      else
        let (r, c'') := update_many q upd c' in (r, d :: c'')
  end.

(** BSON comparison order: null, numbers, strings, arrays, ObjectIds,
    booleans, dates; within a type the natural order, strings byte-wise,
    arrays element by element. *)
Definition bson_rank (v : value) : nat :=
  match v with
  | VNull => 1 | VNum _ => 2 | VStr _ => 3 | VArr _ => 5 | VOid _ => 7 | VBool _ => 8
  | VDate _ => 9
  end.

Fixpoint bson_compare (a b : value) {struct a} : comparison :=
  match a, b with
  | VNum x, VNum y => (x ?= y)%Z
  | VStr x, VStr y => String.compare x y
  | VOid x, VOid y => (x ?= y)%N
  | VBool x, VBool y => Bool.compare x y
  | VDate x, VDate y => (x ?= y)%Z
  | VArr l1, VArr l2 =>
      (fix lex (l1 l2 : list value) {struct l1} : comparison :=
         match l1, l2 with
         | [], [] => Eq
         | [], _ :: _ => Lt
         | _ :: _, [] => Gt
         | x :: l1', y :: l2' =>
             match bson_compare x y with
             | Eq => lex l1' l2'
             | c => c
             end
         end) l1 l2
  | _, _ => Nat.compare (bson_rank a) (bson_rank b)
  end.

Definition bson_leb (a b : value) : bool :=
  match bson_compare a b with
  | Gt => false
  | _ => true
  end.

Definition bson_max (a b : value) : value := if bson_leb a b then b else a.

(** The key a descending sort takes from a field value: an array counts
    by its largest element, and an empty array ([None]) comes below
    everything, null included. *)
Definition desc_key (v : value) : option value :=
  match v with
  | VArr [] => None
  | VArr (x :: l) => Some (fold_right bson_max x l)
  | _ => Some v
  end.

Definition key_leb (a b : option value) : bool :=
  match a, b with
  | None, _ => true
  | Some _, None => false
  | Some x, Some y => bson_leb x y
  end.

(** The sort key of a document on field [k]; a missing field sorts as null. *)
Definition sort_key (k : string) (d : doc) : option value := desc_key (bson (d !! k)).

Fixpoint insert_desc (k : string) (d : doc) (l : list doc) : list doc :=
  match l with
  | [] => [d]
  | x :: l' =>
      if key_leb (sort_key k x) (sort_key k d) then d :: l
      else x :: insert_desc k d l'
  end.

(** [.sort({ k: -1 })].  The server leaves the order of documents with
    equal keys open; the model keeps them in natural order. *)
Definition sort_desc (k : string) (c : list doc) : list doc :=
  fold_right (insert_desc k) [] c.

Inductive collection : Type := Users | Loans | Applications | Payments | Notifications.

Record db : Type := Db {
  users : list doc;
  loans : list doc;
  applications : list doc;
  payments : list doc;
  notifications : list doc
}.

Definition coll (n : collection) (s : db) : list doc :=
  match n with
  | Users => users s
  | Loans => loans s
  | Applications => applications s
  | Payments => payments s
  | Notifications => notifications s
  end.

Definition set_coll (n : collection) (c : list doc) (s : db) : db :=
  match n with
  | Users => Db c (loans s) (applications s) (payments s) (notifications s)
  | Loans => Db (users s) c (applications s) (payments s) (notifications s)
  | Applications => Db (users s) (loans s) c (payments s) (notifications s)
  | Payments => Db (users s) (loans s) (applications s) c (notifications s)
  | Notifications => Db (users s) (loans s) (applications s) (payments s) c
  end.

(** ** Runs of a handler

    A handler runs against a world: the store, the host clock (in
    milliseconds) and the number of effects performed so far.  Every
    effect (a clock read or an awaited store call) lets the time
    [latency h n] pass; a store call can moreover be rejected. *)

Record world : Type := World {
  store : db;
  clock : Z;
  steps : nat
}.

Definition M (A : Type) : Type := host -> world -> result A * world.

Definition ret {A} (a : A) : M A := fun _ w => (Ok a, w).

Definition bind {A B} (m : M A) (f : A -> M B) : M B :=
  fun h w =>
    match m h w with
    | (Ok a, w') => f a h w'
    | (Throw e, w') => (Throw e, w')
    end.

Notation "x <- m ;; k" := (bind m (fun x => k))
  (at level 100, m at next level, right associativity).

Definition throw {A} (e : error) : M A := fun _ w => (Throw e, w).

(** [try { m } catch (error) { handler }] *)
Definition try_catch {A} (m : M A) (handler : error -> M A) : M A :=
  fun h w =>
    match m h w with
    | (Ok a, w') => (Ok a, w')
    | (Throw e, w') => handler e h w'
    end.

Definition ask : M host := fun h w => (Ok h, w).

Fixpoint mapM {A B} (f : A -> M B) (l : list A) : M (list B) :=
  match l with
  | [] => ret []
  | x :: l' => y <- f x ;; ys <- mapM f l' ;; ret (y :: ys)
  end.

Definition elapse (h : host) (w : world) : world :=
  World (store w) (clock w + Z.of_nat (latency h (steps w))) (S (steps w)).

(** [Date.now()] *)
Definition Date_now : M Z :=
  fun h w => let w' := elapse h w in (Ok (clock w'), w').

(** [new Date()] *)
Definition new_Date : M value :=
  fun h w => let w' := elapse h w in (Ok (VDate (clock w')), w').

(** [new ObjectId(s)] *)
Definition new_ObjectId (s : string) : M ObjectId :=
  match ObjectId_of_string s with
  | Some o => ret o
  | None => throw BSONError
  end.

(** An awaited call on a collection. *)
Definition call {A} (n : collection) (op : list doc -> result A * list doc) : M A :=
  fun h w =>
    let w' := elapse h w in
    if fault h (steps w) then (Throw StoreFailure, w')
    else
      let (r, c') := op (coll n (store w')) in
      (r, World (set_coll n c' (store w')) (clock w') (steps w')).

Definition findOne (n : collection) (q : query) : M (option doc) :=
  call n (fun c => (Ok (find_first q c), c)).

(** [find(q, { projection }).toArray()] *)
Definition find_toArray (n : collection) (q : query) (proj : doc -> doc) : M (list doc) :=
  call n (fun c => (Ok (map proj (find_docs q c)), c)).

(** [find(q).sort({ k: -1 }).toArray()] *)
Definition find_sort_toArray (n : collection) (q : query) (k : string) : M (list doc) :=
  call n (fun c => (Ok (sort_desc k (find_docs q c)), c)).

Definition insertOne (n : collection) (d : doc) : M value := call n (insert_doc d).

Definition insertMany (n : collection) (ds : list doc) : M (list value) :=
  call n (insert_docs ds).

Definition updateOne (n : collection) (q : query) (upd : doc) : M UpdateResult :=
  call n (update_one q upd).

Definition updateMany (n : collection) (q : query) (upd : doc) : M UpdateResult :=
  call n (update_many q upd).

(** ** Session tokens *)

(** A session token as [jsonwebtoken] produces and reads it, with the
    signature taken symbolically: a token is either a payload signed under
    a key, or any other string. *)
Inductive token : Type :=
| Jws (payload : doc) (key : string)
| Unsigned (s : string).

Inductive VerifyError : Type :=
| JsonWebTokenError
| NotBeforeError
| TokenExpiredError.

(** The registered claims [iat], [exp], [nbf] must be numbers when present. *)
Definition number_or_absent (o : option value) : bool :=
  match o with
  | None | Some (VNum _) => true
  | Some _ => false
  end.

Definition usable_secret (s : option string) : option string :=
  match s with
  | Some k => if String.eqb k EmptyString then None else Some k
  | None => None
  end.

(** [jwt.sign(payload, secret, { expiresIn })] with [expiresIn] in
    seconds: the payload is extended with [iat] (the payload's own, or the
    current time in seconds) and [exp = iat + expiresIn]. *)
Definition jwt_sign (payload : doc) (secret : option string) (expiresIn : Z) : M token :=
  match usable_secret secret with
  | None => throw (SignError "secretOrPrivateKey must have a value")
  | Some key =>
      if negb (number_or_absent (payload !! "iat") && number_or_absent (payload !! "exp")
               && number_or_absent (payload !! "nbf"))
      then throw (SignError "registered claim should be a number of seconds")
      else if bool_decide (payload !! "exp" = None) then
        timestamp <- (if truthy (payload !! "iat")
                      then ret (match payload !! "iat" with Some (VNum n) => n | _ => 0 end)
                      else now <- Date_now ;; ret (now / 1000)) ;;
        ret (Jws (<["exp" := VNum (timestamp + expiresIn)]>
                    (<["iat" := VNum timestamp]> payload)) key)
      else throw (SignError "the payload already has an exp property")
  end.

(** The [nbf] check of [jwt.verify]. *)
Definition not_before (payload : doc) (clockTimestamp : Z) : option VerifyError :=
  match payload !! "nbf" with
  | Some (VNum nbf) => if nbf >? clockTimestamp then Some NotBeforeError else None
  | Some _ => Some JsonWebTokenError
  | None => None
  end.

(** The [exp] check of [jwt.verify]. *)
Definition expired (payload : doc) (clockTimestamp : Z) : option VerifyError :=
  match payload !! "exp" with
  | Some (VNum exp) => if clockTimestamp >=? exp then Some TokenExpiredError else None
  | Some _ => Some JsonWebTokenError
  | None => None
  end.

(** [jwt.verify(token, secret, callback)]: the callback receives either an
    error or the decoded payload. *)
Definition jwt_verify (t : token) (secret : option string) : M (VerifyError + doc) :=
  now <- Date_now ;;
  let clockTimestamp := now / 1000 in
  ret (match t with
       | Unsigned _ => inl JsonWebTokenError
       | Jws payload key =>
           match usable_secret secret with
           | None => inl JsonWebTokenError
           | Some k =>
               if negb (String.eqb key k) then inl JsonWebTokenError
               else
                 match not_before payload clockTimestamp, expired payload clockTimestamp with
                 | Some e, _ => inl e
                 | None, Some e => inl e
                 | None, None => inr payload
                 end
           end
       end).

(** ** Responses *)

Record cookie : Type := Cookie {
  cookie_token : token;
  cookie_httpOnly : bool;
  cookie_secure : bool;
  cookie_sameSite : string;
  cookie_maxAge : Z;
  cookie_path : string
}.

(** What [res.send] is given. *)
Inductive body : Type :=
| Message (message : string)           (* { message } *)
| InsertOneResult (insertedId : value) (* result of insertOne *)
| Updated (result : UpdateResult)      (* result of updateOne / updateMany *)
| Documents (l : list doc)             (* an array of documents *)
| Issued (t : token).                  (* { success: true, token } *)

Record response : Type := Response {
  status : nat;
  set_cookie : option cookie;
  sent : body
}.

(** [res.send(b)] *)
Definition send (b : body) : M response := ret (Response 200 None b).

(** ** The handlers *)

Definition isProduction (h : host) : bool :=
  bool_decide (NODE_ENV h = Some "production") || bool_decide (VERCEL h = Some "1").

(** Seven days, in seconds. *)
Definition seven_days : Z := 7 * 24 * 60 * 60.

(** [POST /jwt] *)
Definition post_jwt (user : doc) : M response :=
  h <- ask ;;
  token <- jwt_sign user (JWT_SECRET h) seven_days ;;
  let cookieOptions t :=
    Cookie t true (isProduction h) (if isProduction h then "none" else "lax")
           (7 * 24 * 60 * 60 * 1000) "/" in
  ret (Response 200 (Some (cookieOptions token)) (Issued token)).

Definition unauthorized : response := Response 401 None (Message "Unauthorized access").

(** The [verifyJWT] middleware: [cookie] is [req.cookies.token], [next]
    the rest of the route, given [req.user]. *)
Definition verifyJWT (cookie : option token) (next : doc -> M response) : M response :=
  match cookie with
  | None | Some (Unsigned EmptyString) => ret unauthorized
  | Some token =>
      h <- ask ;;
      r <- jwt_verify token (JWT_SECRET h) ;;
      match r with
      | inl err => ret unauthorized
      | inr decoded => next decoded
      end
  end.

(** [POST /users] *)
Definition post_users (user : doc) : M response :=
  let query := [("email", bson (user !! "email"))] in
  existingUser <- findOne Users query ;;
  match existingUser with
  | Some _ => send (Message "User already exists")
  | None =>
      result <- insertOne Users user ;;
      send (InsertOneResult result)
  end.

(** The notification [POST /loans] builds for user [u]. *)
Definition loan_notification (h : host) (loan : doc) (insertedId : value)
    (u : doc) (timestamp : value) : doc :=
  list_to_map
    [("userEmail", bson (u !! "email"));
     ("message", VStr ("New Loan Available: "
                       +:+ ToString h (Some (js_or (loan !! "title") (VStr "Check it out!")))));
     ("type", VStr "info");
     ("path", VStr ("/loans/" +:+ ToString h (Some insertedId)));
     ("timestamp", timestamp);
     ("read", VBool false)].

(** The [try] block of [POST /loans]: one notification per user, in a
    single bulk insert; whatever is thrown inside is caught and logged. *)
Definition broadcast_new_loan (loan : doc) (insertedId : value) : M unit :=
  try_catch
    (allUsers <- find_toArray Users [] (project "email") ;;
     if (0 <? length allUsers)%nat then
       notifications <-
         mapM (fun u =>
                 timestamp <- new_Date ;;
                 h <- ask ;;
                 ret (loan_notification h loan insertedId u timestamp))
              allUsers ;;
       _ <- insertMany Notifications notifications ;;
       ret tt
     else ret tt)
    (fun error => ret tt).

(** [POST /loans] *)
Definition post_loans (loan : doc) : M response :=
  result <- insertOne Loans loan ;;
  _ <- (if truthy (Some result) then broadcast_new_loan loan result else ret tt) ;;
  send (InsertOneResult result).

(** The notification [PATCH /applications/:id] builds. *)
Definition decision_notification (h : host) (application updates : doc)
    (timestamp : value) : doc :=
  list_to_map
    [("userEmail", bson (application !! "userEmail"));
     ("message", VStr ("Your loan application for "
                       +:+ ToString h (application !! "loanTitle")
                       +:+ " has been " +:+ ToString h (updates !! "status") +:+ "."));
     ("type", VStr (if strict_eq_str (updates !! "status") "approved"
                    then "success" else "error"));
     ("timestamp", timestamp);
     ("read", VBool false)].

(** [PATCH /applications/:id] *)
Definition patch_applications (id : string) (updates : doc) : M response :=
  oid <- new_ObjectId id ;;
  let filter := [("_id", VOid oid)] in
  result <- updateOne Applications filter updates ;;
  _ <- (if (0 <? modifiedCount result)%nat && truthy (updates !! "status") then
          application <- findOne Applications filter ;;
          match application with
          | Some application =>
              timestamp <- new_Date ;;
              h <- ask ;;
              _ <- insertOne Notifications
                     (decision_notification h application updates timestamp) ;;
              ret tt
          | None => ret tt
          end
        else ret tt) ;;
  send (Updated result).

(** The [$set] document of [PATCH /payments/success/:loanId]:
    [{ feeStatus: 'paid', transactionId, paidAt }]. *)
Definition payment_update (transactionId paidAt : value) : doc :=
  list_to_map [("feeStatus", VStr "paid"); ("transactionId", transactionId);
               ("paidAt", paidAt)].

(** [PATCH /payments/success/:loanId] *)
Definition patch_payments_success (loanId : string) (body : doc) : M response :=
  let transactionId := body !! "transactionId" in
  oid <- new_ObjectId loanId ;;
  let filter := [("_id", VOid oid)] in
  paidAt <- new_Date ;;
  let updateDoc := payment_update (bson transactionId) paidAt in
  result <- updateOne Applications filter updateDoc ;;
  send (Updated result).

(** [GET /notifications/:email] *)
Definition get_notifications (email : string) : M response :=
  let query := [("userEmail", VStr email)] in
  result <- find_sort_toArray Notifications query "timestamp" ;;
  send (Documents result).

(** [PATCH /notifications/mark-all-read/:email] *)
Definition patch_notifications_mark_all_read (email : string) : M response :=
  let filter := [("userEmail", VStr email); ("read", VBool false)] in
  let updateDoc : doc := {[ "read" := VBool true ]} in
  result <- updateMany Notifications filter updateDoc ;;
  send (Updated result).

(** ** The operations of the specification, as the routes provide them *)

(** [updateStatus(applicationId, newStatus)]: the status route with the
    body [{ status: newStatus }]. *)
Definition updateStatus (applicationId newStatus : string) : M response :=
  patch_applications applicationId {[ "status" := VStr newStatus ]}.

(** [confirmPayment(applicationId, transactionId)] *)
Definition confirmPayment (applicationId : string) (transactionId : value) : M response :=
  patch_payments_success applicationId {[ "transactionId" := transactionId ]}.

(** A read of one application by id. *)
Definition read_application (oid : ObjectId) (w : world) : option doc :=
  find_first [("_id", VOid oid)] (applications (store w)).

(** Neither the store call at step [n] nor any later one is rejected. *)
Definition reliable_from (h : host) (n : nat) : Prop :=
  forall k, (n <= k)%nat -> fault h k = false.

(** [a] may come before [b] in a listing that is newest first on field
    [k]: the key of [b] is not above that of [a]. *)
Definition not_older (k : string) (a b : doc) : Prop :=
  key_leb (sort_key k b) (sort_key k a) = true.

(** The notifications addressed to [email], in the words of the
    specification: the recipient field equals the email. *)
Definition addressed_to (email : string) (d : doc) : bool :=
  bool_decide (d !! "userEmail" = Some (VStr email)).

(** The notifications [GET /notifications/:email] lists: the recipient
    field is the email, or an array with the email among its elements. *)
Definition listed_for (email : string) (d : doc) : bool :=
  match d !! "userEmail" with
  | Some (VArr l) => existsb (fun e => bool_decide (e = VStr email)) l
  | Some v => bool_decide (v = VStr email)
  | None => false
  end.

(** "Newest first", in the words of the specification: of two
    notifications that carry dates, the one listed first is not the
    older. *)
Definition newest_first (a b : doc) : Prop :=
  forall x y,
    a !! "timestamp" = Some (VDate x) -> b !! "timestamp" = Some (VDate y) -> y <= x.

(** ** The messages as the specification words them *)

(** The decision message in the words of the specification. *)
Definition spec_decision_message (loanTitle newStatus : string) : string :=
  "Your application for " +:+ loanTitle +:+ " has been " +:+ newStatus +:+ ".".


(** ** Sample hosts and worlds *)

(** A host whose store rejects exactly the calls selected by [faulty];
    one millisecond passes per effect. *)
Definition sample_host (faulty : nat -> bool) : host :=
  Host (Some "s3cret") None None pretty (fun ms => "Date " +:+ pretty ms)
       (fun _ => 1%nat) faulty.

Definition steady : host := sample_host (fun _ => false).

Definition ann_id : string := "65a1b2c3d4e5f60718293a4b".

Definition ann_oid : ObjectId :=
  Eval vm_compute in default 0%N (ObjectId_of_string ann_id).

Definition ann_application : doc :=
  list_to_map [("_id", VOid ann_oid); ("userEmail", VStr "ann@example.org");
               ("loanId", VStr "65a1b2c3d4e5f60718293a01"); ("loanTitle", VStr "Car");
               ("status", VStr "pending"); ("feeStatus", VStr "unpaid")].

Definition ann : doc :=
  list_to_map [("_id", VOid 1%N); ("email", VStr "ann@example.org"); ("role", VStr "borrower")].

Definition bob : doc :=
  list_to_map [("_id", VOid 2%N); ("email", VStr "bob@example.org"); ("role", VStr "manager")].

Definition note (i : N) (email : string) (ms : Z) (read : bool) : doc :=
  list_to_map [("_id", VOid i); ("userEmail", VStr email); ("message", VStr "hello");
               ("type", VStr "info"); ("timestamp", VDate ms); ("read", VBool read)].

Definition sample_store : db :=
  Db [ann; bob] [] [ann_application] []
     [note 1 "ann@example.org" 500 false; note 2 "bob@example.org" 600 false;
      note 3 "ann@example.org" 700 true; note 4 "ann@example.org" 900 false].

Definition sample_world : world := World sample_store 1000 0.

(** The identity claim Ann signs in with. *)
Definition ann_claim : doc := {[ "email" := VStr "ann@example.org" ]}.

Definition car_loan : doc :=
  list_to_map [("title", VStr "Car"); ("category", VStr "Auto"); ("interestRate", VNum 9);
               ("addedBy", VStr "bob@example.org")].

(** On [sample_world], [POST /loans] performs its bulk insert as effect
    number 4 (after the loan insert, the read of the two users and two
    clock reads); this host rejects exactly that call. *)
Definition bulk_insert_rejected : host := sample_host (Nat.eqb 4).

Definition empty_world : world := World (Db [] [] [] [] []) 1000 0.

(** An application submitted for Ann and Bob jointly: its [userEmail] is
    an array, which [POST /applications] stores as it comes. *)
Definition joint_application : doc :=
  <["userEmail" := VArr [VStr "ann@example.org"; VStr "bob@example.org"]]> ann_application.

Definition joint_world : world :=
  World (Db [ann; bob] [] [joint_application] [] []) 1000 0.

(** * Properties of the store operations *)

Section StoreFacts.

Implicit Types (q : query) (c : list doc) (d upd : doc).

Lemma matches_value_refl v : matches_value v v = true.
Proof. unfold matches_value. now rewrite bool_decide_eq_true_2. Qed.

Lemma matches_field_value d k v :
  d !! k = Some v -> matches_field d (k, v) = true.
Proof.
  intros Hk. unfold matches_field; cbn [fst snd]. rewrite Hk. apply matches_value_refl.
Qed.

(** A document is selected by the filter on its own id. *)
Lemma matches_id oid d :
  d !! "_id" = Some (VOid oid) -> matches [("_id", VOid oid)] d = true.
Proof.
  intros H. unfold matches; cbn [forallb]. now rewrite (matches_field_value _ _ _ H).
Qed.

(** On a document whose [_id] is not an array (the store accepts no
    other) the filter on an id selects by equality. *)
Lemma matches_id_inv oid d :
  (forall l, d !! "_id" <> Some (VArr l)) ->
  matches [("_id", VOid oid)] d = true -> d !! "_id" = Some (VOid oid).
Proof.
  intros Hno. unfold matches, matches_field, matches_value; cbn [forallb fst snd].
  rewrite andb_true_r. destruct (d !! "_id") as [x|] eqn:E; [|discriminate].
  destruct x; rewrite ?orb_false_r, ?bool_decide_eq_true; try congruence.
Qed.

(** An insert never stores an array as [_id]. *)
Lemma insert_doc_id_not_array (x : doc) c i c' :
  Forall (fun d : doc => forall l, d !! "_id" <> Some (VArr l)) c ->
  insert_doc x c = (Ok i, c') ->
  Forall (fun d : doc => forall l, d !! "_id" <> Some (VArr l)) c'.
Proof.
  intros Hc. unfold insert_doc.
  destruct (x !! "_id") as [[]|] eqn:E; try discriminate;
    try (destruct (has_id _ c); [discriminate|]);
    intros [= _ <-]; apply Forall_app; (split; [exact Hc|]);
    repeat constructor; intros l0;
    rewrite ?lookup_insert_eq, ?E; discriminate.
Qed.

(** A condition on one field looks at that field only. *)
Lemma matches_agree k v d d' :
  d' !! k = d !! k -> matches [(k, v)] d' = matches [(k, v)] d.
Proof.
  intros H. unfold matches, matches_field; cbn [forallb fst snd]. now rewrite H.
Qed.

Lemma find_first_exists q c d :
  In d c -> matches q d = true -> exists d', find_first q c = Some d'.
Proof.
  intros Hin Hm. unfold find_first.
  destruct (List.find (matches q) c) as [d'|] eqn:E; [eauto|].
  rewrite (find_none _ _ E d Hin) in Hm. discriminate.
Qed.

(** The first match splits the collection. *)
Lemma find_first_split q c d :
  find_first q c = Some d ->
  exists l1 l2, c = l1 ++ d :: l2
                /\ Forall (fun x => matches q x = false) l1
                /\ matches q d = true.
Proof.
  unfold find_first. induction c as [|a c IH]; simpl; [discriminate|].
  destruct (matches q a) eqn:E; intros H.
  - injection H as <-. exists [], c. auto.
  - destruct (IH H) as (l1 & l2 & -> & Hl1 & Hd).
    exists (a :: l1), l2. auto.
Qed.

Lemma find_first_skip q l1 d l2 :
  Forall (fun x => matches q x = false) l1 -> matches q d = true ->
  find_first q (l1 ++ d :: l2) = Some d.
Proof.
  unfold find_first. intros Hl1 Hd.
  induction Hl1 as [|a l1 Ha _ IH]; simpl.
  - now rewrite Hd.
  - now rewrite Ha.
Qed.

Lemma update_one_none q upd c :
  find_first q c = None -> update_one q upd c = (Ok (mkUpdateResult 0 0), c).
Proof.
  unfold find_first. induction c as [|a c IH]; simpl; [reflexivity|].
  destruct (matches q a); [discriminate|].
  intros H. now rewrite (IH H).
Qed.

Lemma update_one_split q upd l1 d l2 :
  Forall (fun x => matches q x = false) l1 -> matches q d = true ->
  set_allowed upd d = true ->
  update_one q upd (l1 ++ d :: l2)
  = (Ok (mkUpdateResult 1 (changed (apply_set upd d) d)),
     l1 ++ apply_set upd d :: l2).
Proof.
  intros Hl1 Hd Hs.
  induction Hl1 as [|a l1 Ha _ IH]; simpl.
  - now rewrite Hd, Hs.
  - now rewrite Ha, IH.
Qed.

(** A [$set] leaves the fields it does not name alone, and puts the
    others. *)
Lemma apply_set_other upd d k : upd !! k = None -> apply_set upd d !! k = d !! k.
Proof. intros H. unfold apply_set. now apply lookup_union_r. Qed.

Lemma apply_set_put upd d k v : upd !! k = Some v -> apply_set upd d !! k = Some v.
Proof. intros H. unfold apply_set. now apply lookup_union_Some_l. Qed.

Lemma apply_set_singleton k v d : apply_set {[ k := v ]} d = <[k := v]> d.
Proof. unfold apply_set. now rewrite insert_union_singleton_l. Qed.

End StoreFacts.

(** * Properties of runs *)

Lemma call_reliable {A} n (op : list doc -> result A * list doc) h w :
  fault h (steps w) = false ->
  call n op h w
  = (let (r, c') := op (coll n (store w)) in
     (r, World (set_coll n c' (store w)) (clock (elapse h w)) (S (steps w)))).
Proof. intros Hf. unfold call. now rewrite Hf. Qed.

Lemma set_coll_same n s : set_coll n (coll n s) s = s.
Proof. now destruct n, s. Qed.

Lemma coll_set_coll n c s : coll n (set_coll n c s) = c.
Proof. now destruct n. Qed.

Lemma clock_elapse h w : clock w <= clock (elapse h w).
Proof. simpl. lia. Qed.

Lemma reliable_now h n : reliable_from h n -> fault h n = false.
Proof. intros H. apply H. lia. Qed.

Lemma reliable_later h n m : reliable_from h n -> (n <= m)%nat -> reliable_from h m.
Proof. intros H Hle k Hk. apply H. lia. Qed.

(** * User creation *)

(** C6. Creating a user whose email is already in the users collection
    answers "User already exists" (a normal response, not an error),
    inserts nothing and leaves the whole store, hence the stored record
    for that email, as it was. *)
Theorem post_users_existing_email h w (user : doc) e u :
  fault h (steps w) = false ->
  user !! "email" = Some e ->
  In u (users (store w)) -> u !! "email" = Some e ->
  exists w',
    post_users user h w = (Ok (Response 200 None (Message "User already exists")), w')
    /\ store w' = store w.
Proof.
  intros Hf He Hin Hu.
  destruct (find_first_exists [("email", e)] (users (store w)) u Hin) as [d Hd].
  { simpl. now rewrite (matches_field_value _ _ _ Hu). }
  unfold post_users, bind, findOne. rewrite He; simpl bson.
  rewrite call_reliable by assumption. cbn [coll]. rewrite Hd. simpl.
  eexists; split; [reflexivity|]. now destruct (store w).
Qed.

Lemma post_users_existing_email_witness :
  exists w',
    post_users {[ "email" := VStr "ann@example.org" ]} steady sample_world
    = (Ok (Response 200 None (Message "User already exists")), w')
    /\ store w' = store sample_world.
Proof.
  apply (post_users_existing_email steady sample_world _ (VStr "ann@example.org") ann).
  - reflexivity.
  - reflexivity.
  - simpl. auto.
  - reflexivity.
Defined.

(** * Status updates and payment confirmation *)

Lemma payment_update_other transactionId paidAt k :
  k <> "feeStatus" -> k <> "transactionId" -> k <> "paidAt" ->
  payment_update transactionId paidAt !! k = None.
Proof.
  intros H1 H2 H3. unfold payment_update; simpl.
  rewrite !lookup_insert_ne by congruence. apply lookup_empty.
Qed.

Lemma confirmPayment_run h w applicationId oid transactionId :
  ObjectId_of_string applicationId = Some oid ->
  confirmPayment applicationId transactionId h w
  = (x <- updateOne Applications [("_id", VOid oid)]
            (payment_update transactionId (VDate (clock (elapse h w)))) ;;
     send (Updated x)) h (elapse h w).
Proof.
  intros Hid. unfold confirmPayment, patch_payments_success, bind, new_ObjectId.
  rewrite Hid. unfold ret, new_Date.
  now rewrite lookup_singleton_eq.
Qed.

(** The payment route on an existing application, when the store answers. *)
Lemma confirmPayment_existing h w applicationId oid transactionId before app after :
  ObjectId_of_string applicationId = Some oid ->
  applications (store w) = before ++ app :: after ->
  Forall (fun d => matches [("_id", VOid oid)] d = false) before ->
  matches [("_id", VOid oid)] app = true ->
  fault h (S (steps w)) = false ->
  let upd := payment_update transactionId (VDate (clock (elapse h w))) in
  exists w',
    confirmPayment applicationId transactionId h w
    = (Ok (Response 200 None (Updated (mkUpdateResult 1 (changed (apply_set upd app) app)))), w')
    /\ store w' = set_coll Applications (before ++ apply_set upd app :: after) (store w).
Proof.
  intros Hid Happs Hbefore Happ Hf upd.
  rewrite (confirmPayment_run _ _ _ _ _ Hid). fold upd.
  unfold bind, updateOne. rewrite call_reliable by exact Hf.
  cbn [coll elapse store]. rewrite Happs.
  rewrite update_one_split.
  - eexists; split; reflexivity.
  - exact Hbefore.
  - exact Happ.
  - unfold set_allowed, upd. now rewrite payment_update_other.
Qed.

(** C4, amended. For every well-formed id (24 hexadecimal characters)
    that matches no stored application, [updateStatus] answers with an
    update result whose matched and modified counts are zero, raises no
    error, and leaves the store, hence the notifications, as they were. *)
Theorem updateStatus_unknown_id h w applicationId oid newStatus :
  ObjectId_of_string applicationId = Some oid ->
  read_application oid w = None ->
  fault h (steps w) = false ->
  exists w',
    updateStatus applicationId newStatus h w
    = (Ok (Response 200 None (Updated (mkUpdateResult 0 0))), w')
    /\ store w' = store w.
Proof.
  intros Hid Hnone Hf.
  unfold updateStatus, patch_applications, bind, new_ObjectId. rewrite Hid.
  unfold ret at 1. unfold updateOne. rewrite call_reliable by exact Hf.
  cbn [coll]. rewrite (update_one_none _ _ _ Hnone). simpl.
  eexists; split; [reflexivity|]. now destruct (store w).
Qed.

Lemma updateStatus_unknown_id_witness :
  exists w',
    updateStatus "65a1b2c3d4e5f60718293aff" "approved" steady sample_world
    = (Ok (Response 200 None (Updated (mkUpdateResult 0 0))), w')
    /\ store w' = store sample_world.
Proof.
  apply (updateStatus_unknown_id steady sample_world "65a1b2c3d4e5f60718293aff"
           (default 0%N (ObjectId_of_string "65a1b2c3d4e5f60718293aff")));
    vm_compute; reflexivity.
Defined.

(** C4, as stated, fails: an id that is not 24 hexadecimal characters
    matches no stored application (here the collection is even empty),
    yet the route raises instead of answering with a zero count. *)
Lemma updateStatus_malformed_id_raises :
  applications (store empty_world) = []
  /\ updateStatus "unknown-id" "approved" steady empty_world
     = (Throw BSONError, empty_world).
Proof. split; reflexivity. Qed.

(** C5. After [confirmPayment] on an existing application, a read of that
    application shows [feeStatus = "paid"], the supplied transaction id
    and a [paidAt] date that is not earlier than the time of the call. *)
Theorem confirmPayment_then_read h w applicationId oid app transactionId :
  ObjectId_of_string applicationId = Some oid ->
  read_application oid w = Some app ->
  reliable_from h (steps w) ->
  exists r w' app' paidAt,
    confirmPayment applicationId transactionId h w = (Ok r, w')
    /\ read_application oid w' = Some app'
    /\ app' !! "feeStatus" = Some (VStr "paid")
    /\ app' !! "transactionId" = Some transactionId
    /\ app' !! "paidAt" = Some (VDate paidAt)
    /\ clock w <= paidAt.
Proof.
  intros Hid Hread Hrel.
  destruct (find_first_split _ _ _ Hread) as (before & after & Happs & Hbefore & Happ).
  destruct (confirmPayment_existing h w applicationId oid transactionId
              before app after Hid Happs Hbefore Happ) as (w' & Hrun & Hstore).
  { apply Hrel. lia. }
  eexists _, w', _, (clock (elapse h w)).
  split; [exact Hrun|].
  unfold read_application. rewrite Hstore. cbn [set_coll applications].
  split.
  { apply find_first_skip; [exact Hbefore|].
    erewrite matches_agree; [exact Happ|].
    apply apply_set_other. now apply payment_update_other. }
  repeat split; try (apply apply_set_put; reflexivity).
  apply clock_elapse.
Qed.

Lemma confirmPayment_then_read_witness :
  exists r w' app' paidAt,
    confirmPayment ann_id (VStr "tx_123") steady sample_world = (Ok r, w')
    /\ read_application ann_oid w' = Some app'
    /\ app' !! "feeStatus" = Some (VStr "paid")
    /\ app' !! "transactionId" = Some (VStr "tx_123")
    /\ app' !! "paidAt" = Some (VDate paidAt)
    /\ clock sample_world <= paidAt.
Proof.
  apply (confirmPayment_then_read steady sample_world ann_id ann_oid ann_application (VStr "tx_123")).
  - reflexivity.
  - reflexivity.
  - intros k _. reflexivity.
Defined.

(** C10. [confirmPayment] on an existing application touches nothing but
    the fields [feeStatus], [transactionId] and [paidAt] of that
    application: its other fields, the other applications and the other
    collections are as before (whether or not the store answers). *)
Theorem confirmPayment_frame h w applicationId oid app transactionId :
  ObjectId_of_string applicationId = Some oid ->
  read_application oid w = Some app ->
  exists r w' before after app',
    confirmPayment applicationId transactionId h w = (r, w')
    /\ applications (store w) = before ++ app :: after
    /\ Forall (fun d => d !! "_id" <> Some (VOid oid)) before
    /\ applications (store w') = before ++ app' :: after
    /\ (forall k, k <> "feeStatus" -> k <> "transactionId" -> k <> "paidAt" ->
                  app' !! k = app !! k)
    /\ users (store w') = users (store w)
    /\ loans (store w') = loans (store w)
    /\ payments (store w') = payments (store w)
    /\ notifications (store w') = notifications (store w).
Proof.
  intros Hid Hread.
  destruct (find_first_split _ _ _ Hread) as (before & after & Happs & Hbefore & Happ).
  assert (Hids : Forall (fun d : doc => d !! "_id" <> Some (VOid oid)) before).
  { eapply Forall_impl; [exact Hbefore|]. intros d Hd Hd'.
    apply matches_id in Hd'. congruence. }
  destruct (fault h (S (steps w))) eqn:Hf.
  - (* the store rejects the update: nothing changes *)
    rewrite (confirmPayment_run _ _ _ _ _ Hid).
    unfold bind, updateOne, call. cbn [elapse steps]. rewrite Hf.
    eexists _, _, before, after, app. split; [reflexivity|].
    cbn [store]. auto 10.
  - destruct (confirmPayment_existing h w applicationId oid transactionId
                before app after Hid Happs Hbefore Happ) as (w' & Hrun & Hstore);
      [exact Hf |].
    eexists _, w', before, after, _. split; [exact Hrun|].
    rewrite Hstore. cbn [set_coll applications users loans payments notifications].
    repeat split; auto.
    intros k H1 H2 H3. apply apply_set_other. now apply payment_update_other.
Qed.

Lemma confirmPayment_frame_witness :
  exists r w' before after app',
    confirmPayment ann_id (VStr "tx_123") steady sample_world = (r, w')
    /\ applications (store sample_world) = before ++ ann_application :: after
    /\ Forall (fun d => d !! "_id" <> Some (VOid ann_oid)) before
    /\ applications (store w') = before ++ app' :: after
    /\ (forall k, k <> "feeStatus" -> k <> "transactionId" -> k <> "paidAt" ->
                  app' !! k = ann_application !! k)
    /\ users (store w') = users (store sample_world)
    /\ loans (store w') = loans (store sample_world)
    /\ payments (store w') = payments (store sample_world)
    /\ notifications (store w') = notifications (store sample_world).
Proof.
  apply (confirmPayment_frame steady sample_world ann_id ann_oid ann_application
           (VStr "tx_123")); reflexivity.
Defined.

Lemma changed_by_set k v d : d !! k <> Some v -> changed (<[k := v]> d) d = 1%nat.
Proof.
  intros Hk. unfold changed. destruct (decide (<[k := v]> d = d)) as [E|]; [|reflexivity].
  exfalso. apply Hk. rewrite <- E. apply lookup_insert_eq.
Qed.

Lemma truthy_string s : s <> EmptyString -> truthy (Some (VStr s)) = true.
Proof.
  intros Hs. simpl. destruct (String.eqb_spec s EmptyString); [contradiction|reflexivity].
Qed.

Lemma insert_doc_generated (d : doc) c :
  d !! "_id" = None ->
  insert_doc d c
  = (Ok (VOid (fresh_ObjectId c)), c ++ [<["_id" := VOid (fresh_ObjectId c)]> d]).
Proof. intros H. unfold insert_doc. now rewrite H. Qed.

Lemma decision_notification_fields h (application updates : doc) timestamp :
  let n := decision_notification h application updates timestamp in
  n !! "_id" = None
  /\ n !! "userEmail" = Some (bson (application !! "userEmail"))
  /\ n !! "message"
     = Some (VStr ("Your loan application for "
                   +:+ ToString h (application !! "loanTitle")
                   +:+ " has been " +:+ ToString h (updates !! "status") +:+ "."))
  /\ n !! "type" = Some (VStr (if strict_eq_str (updates !! "status") "approved"
                               then "success" else "error"))
  /\ n !! "timestamp" = Some timestamp
  /\ n !! "read" = Some (VBool false)
  /\ n !! "path" = None.
Proof. repeat split. Qed.

(** C1, amended. [updateStatus] with a non-empty status that changes an
    existing application leaves that application with the new status and
    appends exactly one notification: addressed to the application's
    [userEmail], of type "success" for "approved" and "error" otherwise,
    unread, without a path, and with the message
    "Your loan application for <loanTitle> has been <newStatus>." *)
Theorem updateStatus_notifies h w applicationId oid app newStatus :
  ObjectId_of_string applicationId = Some oid ->
  read_application oid w = Some app ->
  newStatus <> EmptyString ->
  app !! "status" <> Some (VStr newStatus) ->
  reliable_from h (steps w) ->
  exists w' n timestamp,
    updateStatus applicationId newStatus h w
    = (Ok (Response 200 None (Updated (mkUpdateResult 1 1))), w')
    /\ read_application oid w' = Some (<["status" := VStr newStatus]> app)
    /\ notifications (store w') = notifications (store w) ++ [n]
    /\ n !! "userEmail" = Some (bson (app !! "userEmail"))
    /\ n !! "type" = Some (VStr (if bool_decide (newStatus = "approved")
                                 then "success" else "error"))
    /\ n !! "message" = Some (VStr ("Your loan application for "
                                    +:+ ToString h (app !! "loanTitle")
                                    +:+ " has been " +:+ newStatus +:+ "."))
    /\ n !! "timestamp" = Some (VDate timestamp)
    /\ n !! "read" = Some (VBool false)
    /\ n !! "path" = None.
Proof.
  intros Hid Hread Hne Hch Hrel.
  destruct (find_first_split _ _ _ Hread) as (before & after & Happs & Hbefore & Happ).
  set (app' := <["status" := VStr newStatus]> app).
  assert (Happ' : matches [("_id", VOid oid)] app' = true).
  { erewrite matches_agree; [exact Happ|]. unfold app'. now rewrite lookup_insert_ne. }
  unfold updateStatus, patch_applications, bind, new_ObjectId. rewrite Hid.
  unfold ret at 1. unfold updateOne.
  rewrite call_reliable by (apply Hrel; lia).
  cbn [coll]. rewrite Happs.
  rewrite update_one_split; [|exact Hbefore|exact Happ|reflexivity].
  rewrite apply_set_singleton, (changed_by_set _ _ _ Hch). fold app'.
  cbn [modifiedCount]. rewrite lookup_singleton_eq, (truthy_string _ Hne).
  cbn [Nat.ltb Nat.leb andb].
  unfold findOne. rewrite call_reliable by (apply Hrel; cbn [steps]; lia).
  cbn [coll store set_coll applications].
  rewrite (find_first_skip _ _ _ _ Hbefore Happ').
  unfold new_Date, ask, insertOne.
  rewrite call_reliable by (apply Hrel; cbn [steps elapse]; lia).
  cbn [coll store set_coll notifications elapse steps clock].
  match goal with
  | |- context [insert_doc (decision_notification ?a ?b ?c ?t) _] =>
      destruct (decision_notification_fields a b c t)
        as (Hn_id & Hn_to & Hn_msg & Hn_type & Hn_ts & Hn_read & Hn_path)
  end.
  rewrite insert_doc_generated by exact Hn_id.
  unfold send, ret.
  eexists _, _, _. split; [reflexivity|].
  cbn [store set_coll applications notifications].
  split; [unfold read_application; cbn [store applications];
          now apply find_first_skip|].
  split; [reflexivity|].
  rewrite !lookup_insert_ne by discriminate.
  rewrite Hn_to, Hn_msg, Hn_type, Hn_ts, Hn_read, Hn_path.
  unfold strict_eq_str, app'.
  rewrite !lookup_insert_ne by discriminate. rewrite lookup_singleton_eq.
  cbn [ToString].
  repeat (split; [reflexivity|]).
  split; [|auto].
  rewrite (bool_decide_ext (Some (VStr newStatus) = Some (VStr "approved"))
             (newStatus = "approved")) by (split; congruence).
  reflexivity.
Qed.

Lemma updateStatus_notifies_witness :
  exists w' n timestamp,
    updateStatus ann_id "approved" steady sample_world
    = (Ok (Response 200 None (Updated (mkUpdateResult 1 1))), w')
    /\ read_application ann_oid w' = Some (<["status" := VStr "approved"]> ann_application)
    /\ notifications (store w') = notifications (store sample_world) ++ [n]
    /\ n !! "userEmail" = Some (bson (ann_application !! "userEmail"))
    /\ n !! "type" = Some (VStr (if bool_decide ("approved" = "approved")
                                 then "success" else "error"))
    /\ n !! "message" = Some (VStr ("Your loan application for "
                                    +:+ ToString steady (ann_application !! "loanTitle")
                                    +:+ " has been " +:+ "approved" +:+ "."))
    /\ n !! "timestamp" = Some (VDate timestamp)
    /\ n !! "read" = Some (VBool false)
    /\ n !! "path" = None.
Proof.
  apply (updateStatus_notifies steady sample_world ann_id ann_oid ann_application "approved").
  - reflexivity.
  - reflexivity.
  - discriminate.
  - vm_compute. discriminate.
  - intros k _. reflexivity.
Defined.

(** C1, as stated, fails on the wording of the message: approving Ann's
    application for the loan "Car" stores "Your loan application for Car
    has been approved.", not "Your application for Car has been
    approved." *)
Lemma updateStatus_message_wording :
  exists w' n,
    ann_application !! "loanTitle" = Some (VStr "Car")
    /\ updateStatus ann_id "approved" steady sample_world
       = (Ok (Response 200 None (Updated (mkUpdateResult 1 1))), w')
    /\ notifications (store w') = notifications (store sample_world) ++ [n]
    /\ n !! "message" = Some (VStr "Your loan application for Car has been approved.")
    /\ n !! "message" <> Some (VStr (spec_decision_message "Car" "approved")).
Proof.
  eexists _, _. split; [reflexivity|].
  split; [vm_compute; reflexivity|].
  split; [reflexivity|].
  split; [reflexivity|].
  vm_compute. discriminate.
Qed.

(** * Listing and read-marking of notifications *)

Section Ordering.

Lemma string_compare_trans x y z :
  String.compare x y = Lt -> String.compare y z = Lt -> String.compare x z = Lt.
Proof.
  intros H1 H2.
  apply OrderedTypeEx.String_as_OT.cmp_lt in H1, H2.
  apply OrderedTypeEx.String_as_OT.cmp_lt.
  eapply OrderedTypeEx.String_as_OT.lt_trans; eassumption.
Qed.

Lemma bson_compare_eq a : forall b, bson_compare a b = Eq -> a = b.
Proof.
  induction a using value_induction; intros [] Hc; cbn in Hc; try discriminate;
    try reflexivity.
  - destruct b, b0; cbn in Hc; congruence.
  - apply Z.compare_eq in Hc. congruence.
  - apply String.compare_eq_iff in Hc. congruence.
  - apply Z.compare_eq in Hc. congruence.
  - apply N.compare_eq in Hc. congruence.
  - f_equal. revert l0 Hc. induction H as [|x l Hx _ IH]; intros [|y l0] Hc;
      try discriminate; [reflexivity|].
    destruct (bson_compare x y) eqn:E; try discriminate.
    apply Hx in E. subst y. f_equal. now apply IH.
Qed.

Lemma bson_compare_antisym a : forall b, bson_compare b a = CompOpp (bson_compare a b).
Proof.
  induction a using value_induction; intros []; cbn; try reflexivity.
  - now destruct b, b0.
  - apply Z.compare_antisym.
  - apply String.compare_antisym.
  - apply Z.compare_antisym.
  - apply N.compare_antisym.
  - revert l0. induction H as [|x l Hx _ IH]; intros [|y l0]; try reflexivity.
    rewrite (Hx y). destruct (bson_compare x y); cbn; try reflexivity. apply IH.
Qed.

Lemma bson_compare_trans a : forall b c,
  bson_compare a b = Lt -> bson_compare b c = Lt -> bson_compare a c = Lt.
Proof.
  induction a using value_induction; intros [] [] H1 H2; cbn in *;
    try discriminate; try reflexivity.
  - destruct b, b0, b1; cbn in *; congruence.
  - rewrite Z.compare_lt_iff in *. lia.
  - eapply string_compare_trans; eassumption.
  - rewrite Z.compare_lt_iff in *. lia.
  - rewrite N.compare_lt_iff in *. lia.
  - revert l0 l1 H1 H2. induction H as [|x l Hx _ IH]; intros [|y l0] [|z l1] H1 H2;
      try discriminate; try reflexivity.
    destruct (bson_compare x y) eqn:Exy; try discriminate.
    + apply bson_compare_eq in Exy. subst y.
      destruct (bson_compare x z); try discriminate; [|reflexivity].
      eapply IH; eassumption.
    + destruct (bson_compare y z) eqn:Eyz; try discriminate.
      * apply bson_compare_eq in Eyz. subst z. now rewrite Exy.
      * now rewrite (Hx _ _ Exy Eyz).
Qed.

Lemma bson_leb_total a b : bson_leb a b = true \/ bson_leb b a = true.
Proof.
  unfold bson_leb. rewrite (bson_compare_antisym a b).
  destruct (bson_compare a b); cbn; auto.
Qed.

Lemma bson_leb_trans a b c :
  bson_leb a b = true -> bson_leb b c = true -> bson_leb a c = true.
Proof.
  unfold bson_leb. intros H1 H2.
  destruct (bson_compare a b) eqn:Eab; try discriminate.
  - apply bson_compare_eq in Eab. now subst b.
  - destruct (bson_compare b c) eqn:Ebc; try discriminate.
    + apply bson_compare_eq in Ebc. subst c. now rewrite Eab.
    + now rewrite (bson_compare_trans _ _ _ Eab Ebc).
Qed.

(** On dates the order is the order of time. *)
Lemma bson_leb_dates x y : bson_leb (VDate x) (VDate y) = true <-> x <= y.
Proof.
  unfold bson_leb; simpl. destruct (Z.compare_spec x y); split; intros; try lia;
    try reflexivity; discriminate.
Qed.

Lemma key_leb_total a b : key_leb a b = true \/ key_leb b a = true.
Proof. destruct a, b; cbn; auto. apply bson_leb_total. Qed.

Lemma key_leb_trans a b c :
  key_leb a b = true -> key_leb b c = true -> key_leb a c = true.
Proof.
  destruct a, b, c; cbn; try discriminate; try reflexivity. apply bson_leb_trans.
Qed.

Variable k : string.

Lemma not_older_trans a b c : not_older k a b -> not_older k b c -> not_older k a c.
Proof. unfold not_older. intros H1 H2. eapply key_leb_trans; eassumption. Qed.

Lemma insert_desc_perm d l : Permutation (insert_desc k d l) (d :: l).
Proof.
  induction l as [|x l IH]; simpl; [reflexivity|].
  destruct (key_leb (sort_key k x) (sort_key k d)); [reflexivity|].
  rewrite IH. apply perm_swap.
Qed.

Lemma sort_desc_perm c : Permutation (sort_desc k c) c.
Proof.
  induction c as [|d c IH]; simpl; [reflexivity|].
  rewrite insert_desc_perm. now constructor.
Qed.

Lemma insert_desc_hd d x l :
  not_older k x d -> HdRel (not_older k) x l -> HdRel (not_older k) x (insert_desc k d l).
Proof.
  intros Hxd Hl. destruct l as [|y l]; simpl.
  - now constructor.
  - destruct (key_leb (sort_key k y) (sort_key k d)); constructor; auto.
    now inversion Hl.
Qed.

Lemma insert_desc_sorted d l :
  Sorted (not_older k) l -> Sorted (not_older k) (insert_desc k d l).
Proof.
  induction 1 as [|x l Hl IH Hx]; simpl.
  - repeat constructor.
  - destruct (key_leb (sort_key k x) (sort_key k d)) eqn:E.
    + constructor; [now constructor|]. constructor. exact E.
    + constructor; [exact IH|]. apply insert_desc_hd; [|exact Hx].
      unfold not_older. destruct (key_leb_total (sort_key k x) (sort_key k d)); congruence.
Qed.

(** The listing is in descending order of the key: every document is
    not older than all that follow it. *)
Lemma sort_desc_sorted c : StronglySorted (not_older k) (sort_desc k c).
Proof.
  apply Sorted_StronglySorted.
  - intros a b c'. apply not_older_trans.
  - induction c as [|d c IH]; simpl; [constructor|]. now apply insert_desc_sorted.
Qed.

End Ordering.

(** The order of the sort keys is the order of time on dates. *)
Lemma not_older_newest_first a b : not_older "timestamp" a b -> newest_first a b.
Proof.
  unfold not_older, newest_first, sort_key. intros H x y Ha Hb.
  rewrite Ha, Hb in H. cbn in H. now apply bson_leb_dates.
Qed.

Lemma StronglySorted_weaken {A} (R R' : A -> A -> Prop) l :
  (forall a b, R a b -> R' a b) -> StronglySorted R l -> StronglySorted R' l.
Proof.
  intros HR. induction 1 as [|a l _ IH Ha]; constructor; [exact IH|].
  eapply Forall_impl; [exact Ha|]. intros b. apply HR.
Qed.

Lemma matches_listed_for email d :
  matches [("userEmail", VStr email)] d = listed_for email d.
Proof.
  unfold matches, matches_field, matches_value, listed_for; cbn [forallb fst snd].
  rewrite andb_true_r.
  destruct (d !! "userEmail") as [[]|]; try apply orb_false_r; reflexivity.
Qed.

(** C8, amended. [GET /notifications/:email] returns exactly the
    notifications whose [userEmail] is the email or an array that
    contains it (each as often as it is stored), newest first: no listed
    notification carries a later date than one listed before it. *)
Theorem get_notifications_newest_first h w email :
  fault h (steps w) = false ->
  exists l w',
    get_notifications email h w = (Ok (Response 200 None (Documents l)), w')
    /\ store w' = store w
    /\ Permutation l (List.filter (listed_for email) (notifications (store w)))
    /\ StronglySorted newest_first l
    /\ StronglySorted (not_older "timestamp") l.
Proof.
  intros Hf. unfold get_notifications, bind, find_sort_toArray.
  rewrite call_reliable by exact Hf. cbn [coll]. unfold send, ret.
  eexists _, _. split; [reflexivity|]. cbn [store].
  split; [now destruct (store w)|].
  split.
  - rewrite sort_desc_perm. unfold find_docs.
    rewrite (List.filter_ext _ _ (matches_listed_for email)). reflexivity.
  - split; [|apply sort_desc_sorted].
    eapply StronglySorted_weaken; [apply not_older_newest_first|apply sort_desc_sorted].
Qed.

Lemma get_notifications_newest_first_witness :
  exists l w',
    get_notifications "ann@example.org" steady sample_world
    = (Ok (Response 200 None (Documents l)), w')
    /\ store w' = store sample_world
    /\ Permutation l (List.filter (listed_for "ann@example.org")
                        (notifications (store sample_world)))
    /\ StronglySorted newest_first l
    /\ StronglySorted (not_older "timestamp") l.
Proof.
  apply (get_notifications_newest_first steady sample_world "ann@example.org").
  reflexivity.
Defined.

(** On the sample store Ann's three notifications come back newest first. *)
Example get_notifications_sample :
  fst (get_notifications "ann@example.org" steady sample_world)
  = Ok (Response 200 None
          (Documents [note 4 "ann@example.org" 900 false;
                      note 3 "ann@example.org" 700 true;
                      note 1 "ann@example.org" 500 false])).
Proof. vm_compute. reflexivity. Qed.

(** C8, as stated, fails: a notification whose recipient field is not the
    email is listed all the same when that field is an array holding the
    email.  Deciding an application submitted with two emails as its
    [userEmail] stores such a notification, and Ann's listing has it. *)
Lemma get_notifications_lists_shared :
  exists r1 w1 n w2,
    updateStatus ann_id "approved" steady joint_world = (Ok r1, w1)
    /\ get_notifications "ann@example.org" steady w1
       = (Ok (Response 200 None (Documents [n])), w2)
    /\ n !! "userEmail" = Some (VArr [VStr "ann@example.org"; VStr "bob@example.org"])
    /\ n !! "userEmail" <> Some (VStr "ann@example.org")
    /\ addressed_to "ann@example.org" n = false.
Proof.
  eexists _, _, _, _.
  split; [vm_compute; reflexivity|].
  split; [vm_compute; reflexivity|].
  split; [reflexivity|].
  split; [discriminate|reflexivity].
Qed.

(** The filter and the update of [PATCH /notifications/mark-all-read/:email]. *)
Lemma marked_not_unread email (d : doc) :
  matches [("userEmail", VStr email); ("read", VBool false)]
          (apply_set {[ "read" := VBool true ]} d) = false.
Proof.
  unfold matches; cbn [forallb].
  replace (matches_field (apply_set {[ "read" := VBool true ]} d) ("read", VBool false))
    with false; [apply andb_false_r|].
  unfold matches_field; cbn [fst snd].
  now rewrite apply_set_singleton, lookup_insert_eq.
Qed.

(** After the update no notification of the user is unread. *)
Lemma update_many_marks_all email (c : list doc) :
  let unread := [("userEmail", VStr email); ("read", VBool false)] in
  exists r c',
    update_many unread {[ "read" := VBool true ]} c = (Ok r, c')
    /\ Forall (fun d => matches unread d = false) c'.
Proof.
  intros unread.
  induction c as [|d c (r & c' & IH & Hc')]; cbn [update_many].
  - eexists _, _. split; [reflexivity|constructor].
  - rewrite IH. destruct (matches unread d) eqn:E.
    + change (set_allowed {[ "read" := VBool true ]} d) with true. cbn iota.
      eexists _, _. split; [reflexivity|].
      constructor; [apply marked_not_unread|exact Hc'].
    + eexists _, _. split; [reflexivity|]. now constructor.
Qed.

Lemma update_many_no_match q upd (c : list doc) :
  Forall (fun d => matches q d = false) c ->
  update_many q upd c = (Ok (mkUpdateResult 0 0), c).
Proof.
  induction 1 as [|d c Hd _ IH]; cbn [update_many]; [reflexivity|].
  now rewrite Hd, IH.
Qed.

(** C9. Marking all of a user's notifications as read twice in a row:
    the second call modifies zero records and leaves the store as the
    first call left it. *)
Theorem mark_all_read_idempotent email h w :
  fault h (steps w) = false -> fault h (S (steps w)) = false ->
  exists r1 w1 w2,
    patch_notifications_mark_all_read email h w = (Ok r1, w1)
    /\ patch_notifications_mark_all_read email h w1
       = (Ok (Response 200 None (Updated (mkUpdateResult 0 0))), w2)
    /\ store w2 = store w1.
Proof.
  intros Hf1 Hf2.
  destruct (update_many_marks_all email (notifications (store w))) as (r & c' & Hrun & Hc').
  unfold patch_notifications_mark_all_read, bind, updateMany.
  rewrite call_reliable by exact Hf1. cbn [coll].
  rewrite Hrun. cbn [send ret].
  eexists _, _, _. split; [reflexivity|].
  rewrite call_reliable by exact Hf2. cbn [coll store set_coll notifications].
  rewrite (update_many_no_match _ _ _ Hc'). cbn [send ret].
  split; reflexivity.
Qed.

Lemma mark_all_read_idempotent_witness :
  exists r1 w1 w2,
    patch_notifications_mark_all_read "ann@example.org" steady sample_world = (Ok r1, w1)
    /\ patch_notifications_mark_all_read "ann@example.org" steady w1
       = (Ok (Response 200 None (Updated (mkUpdateResult 0 0))), w2)
    /\ store w2 = store w1.
Proof.
  apply (mark_all_read_idempotent "ann@example.org" steady sample_world); reflexivity.
Defined.

(** On the sample store the first call marks Ann's two unread
    notifications. *)
Example mark_all_read_sample :
  fst (patch_notifications_mark_all_read "ann@example.org" steady sample_world)
  = Ok (Response 200 None (Updated (mkUpdateResult 2 2))).
Proof. vm_compute. reflexivity. Qed.

(** * Loan creation and its broadcast *)




(** Building the notifications reads the clock once per user and leaves
    the store alone. *)
Lemma build_notifications h loan insertedId (us : list doc) w :
  exists ns w',
    mapM (fun u => timestamp <- new_Date ;;
                   h' <- ask ;;
                   ret (loan_notification h' loan insertedId u timestamp)) us h w
    = (Ok ns, w')
    /\ store w' = store w
    /\ steps w' = (steps w + length us)%nat
    /\ Forall2 (fun u n => exists ms, n = loan_notification h loan insertedId u (VDate ms))
               us ns.
Proof.
  revert w. induction us as [|u us IH]; intros w; cbn [mapM].
  - eexists _, _. split; [reflexivity|]. repeat split; [simpl; lia|constructor].
  - unfold bind at 1. unfold bind at 1. unfold new_Date at 1. unfold bind at 1.
    unfold ask at 1. unfold ret at 1. unfold bind at 1.
    destruct (IH (elapse h w)) as (ns & w' & Hrun & Hstore & Hsteps & Hall).
    rewrite Hrun. unfold ret at 1.
    eexists _, _. split; [reflexivity|].
    split; [exact Hstore|].
    split; [rewrite Hsteps; simpl; lia|].
    constructor; [eauto|exact Hall].
Qed.


(** The broadcast never throws, and touches no collection but the
    notifications. *)
Lemma broadcast_new_loan_swallows h w loan insertedId :
  exists w',
    broadcast_new_loan loan insertedId h w = (Ok tt, w')
    /\ users (store w') = users (store w)
    /\ loans (store w') = loans (store w)
    /\ applications (store w') = applications (store w)
    /\ payments (store w') = payments (store w).
Proof.
  unfold broadcast_new_loan, try_catch, bind at 1, find_toArray, call.
  destruct (fault h (steps w)).
  { eexists; split; [reflexivity|]. cbn [store elapse]. auto. }
  cbn [coll store elapse set_coll].
  destruct (0 <? length _)%nat.
  2:{ eexists; split; [reflexivity|]. cbn [store]. auto. }
  unfold bind at 1.
  match goal with
  | |- context [mapM ?f ?us h ?w1] =>
      destruct (build_notifications h loan insertedId us w1)
        as (ns & w2 & Hrun & Hstore & _ & _)
  end.
  rewrite Hrun. unfold bind, insertMany, call.
  destruct (fault h (steps w2)).
  { eexists; split; [reflexivity|]. cbn [store elapse]. rewrite Hstore. cbn [store]. auto. }
  destruct (insert_docs ns _) as [[ids|e] c'];
    (eexists; split; [reflexivity|]); cbn [store elapse set_coll users loans applications payments];
    rewrite Hstore; cbn [store users loans applications payments]; auto.
Qed.

(** C7. Once the loan itself is inserted, [POST /loans] answers with the
    insert result and the loan is in the store, whatever happens to the
    broadcast: a rejected bulk insert of the notifications (or a rejected
    read of the users) changes neither. *)
Theorem post_loans_survives_broadcast h w loan insertedId loans' :
  fault h (steps w) = false ->
  insert_doc loan (loans (store w)) = (Ok insertedId, loans') ->
  exists w',
    post_loans loan h w = (Ok (Response 200 None (InsertOneResult insertedId)), w')
    /\ loans (store w') = loans'.
Proof.
  intros Hf Hins. unfold post_loans, bind at 1, insertOne.
  rewrite call_reliable by exact Hf. cbn [coll]. rewrite Hins.
  unfold bind. destruct (truthy (Some insertedId)).
  - match goal with
    | |- context [broadcast_new_loan _ _ h ?w1] =>
        destruct (broadcast_new_loan_swallows h w1 loan insertedId)
          as (w' & Hrun & _ & Hloans & _)
    end.
    rewrite Hrun. eexists; split; [reflexivity|]. rewrite Hloans. reflexivity.
  - eexists; split; reflexivity.
Qed.

Lemma post_loans_survives_broadcast_witness :
  exists w',
    post_loans car_loan bulk_insert_rejected sample_world
    = (Ok (Response 200 None (InsertOneResult (VOid 1%N))), w')
    /\ loans (store w') = [<["_id" := VOid 1%N]> car_loan].
Proof.
  apply (post_loans_survives_broadcast bulk_insert_rejected sample_world car_loan
           (VOid 1%N) [<["_id" := VOid 1%N]> car_loan]); reflexivity.
Defined.

(** On that host the bulk insert is indeed lost (the notifications are
    as before), and the answer is the one the steady host gives. *)
Example post_loans_bulk_insert_rejected :
  notifications (store (snd (post_loans car_loan bulk_insert_rejected sample_world)))
  = notifications (store sample_world)
  /\ fst (post_loans car_loan bulk_insert_rejected sample_world)
     = fst (post_loans car_loan steady sample_world)
  /\ length (notifications (store (snd (post_loans car_loan steady sample_world))))
     = (length (notifications (store sample_world)) + 2)%nat.
Proof. vm_compute. auto. Qed.





(** * Session tokens *)

Lemma seconds_before now exp : now < 1000 * exp -> (now / 1000 >=? exp) = false.
Proof.
  intros H. rewrite Z.geb_leb. apply Z.leb_gt.
  apply Z.div_lt_upper_bound; lia.
Qed.

Lemma seconds_after now exp : 1000 * exp <= now -> (now / 1000 >=? exp) = true.
Proof.
  intros H. rewrite Z.geb_leb. apply Z.leb_le.
  apply Z.div_le_lower_bound; lia.
Qed.

(** What [POST /jwt] issues: the claim with [iat] and [exp] put, signed
    under the server's secret. *)
Lemma post_jwt_token h w claim ck tok w1 :
  post_jwt claim h w = (Ok (Response 200 (Some ck) (Issued tok)), w1) ->
  exists key iat,
    usable_secret (JWT_SECRET h) = Some key
    /\ cookie_token ck = tok
    /\ tok = Jws (<["exp" := VNum (iat + seven_days)]> (<["iat" := VNum iat]> claim)) key.
Proof.
  unfold post_jwt, bind, ask, jwt_sign.
  destruct (usable_secret (JWT_SECRET h)) as [key|]; [|discriminate].
  destruct (negb _); [discriminate|].
  destruct (bool_decide _); [|discriminate].
  destruct (truthy (claim !! "iat")); unfold bind, ret, Date_now;
    intros H; injection H as <- <- _; eauto.
Qed.

(** [POST /jwt] issues a token for every claim that carries none of the
    registered fields, as soon as the server has a secret: the claim with
    [iat], the time of issue in whole seconds, and [exp], seven days
    later, signed under the secret and set as the cookie. *)
Lemma post_jwt_issues h w (claim : doc) key :
  usable_secret (JWT_SECRET h) = Some key ->
  claim !! "iat" = None -> claim !! "exp" = None -> claim !! "nbf" = None ->
  let iat := clock (elapse h w) / 1000 in
  let tok := Jws (<["exp" := VNum (iat + seven_days)]> (<["iat" := VNum iat]> claim)) key in
  exists ck,
    post_jwt claim h w = (Ok (Response 200 (Some ck) (Issued tok)), elapse h w)
    /\ cookie_token ck = tok.
Proof.
  intros Hkey Hiat Hexp Hnbf.
  unfold post_jwt, jwt_sign. cbv [bind ask].
  rewrite Hkey, Hiat, Hexp, Hnbf. cbn. eauto.
Qed.

(** C2, amended. On a server whose secret is set, for every identity
    claim without the fields [iat], [exp] and [nbf]: [POST /jwt] issues a
    token; verified at any instant strictly before its expiry, the token
    gives back the claim extended with [iat], the time of issue in whole
    seconds, and [exp = iat + 604800] (every other field is that of the
    claim, and no other field is added); verified at or after expiry
    ([1000 * exp] milliseconds) it is rejected with the 401 "Unauthorized
    access" response. *)
Theorem session_token_roundtrip h w claim key :
  usable_secret (JWT_SECRET h) = Some key ->
  claim !! "iat" = None -> claim !! "exp" = None -> claim !! "nbf" = None ->
  let iat := clock (elapse h w) / 1000 in
  let expiry := iat + 604800 in
  let decoded := <["exp" := VNum expiry]> (<["iat" := VNum iat]> claim) in
  exists ck tok w1,
    post_jwt claim h w = (Ok (Response 200 (Some ck) (Issued tok)), w1)
    /\ cookie_token ck = tok
    /\ (forall k, k <> "iat" -> k <> "exp" -> decoded !! k = claim !! k)
    /\ forall w2 next,
         let now := clock (elapse h w2) in
         (now < 1000 * expiry ->
          verifyJWT (Some tok) next h w2 = next decoded h (elapse h w2))
         /\ (1000 * expiry <= now ->
             verifyJWT (Some tok) next h w2 = (Ok unauthorized, elapse h w2)).
Proof.
  intros Hkey Hiat Hexp Hnbf iat expiry decoded.
  destruct (post_jwt_issues h w claim key Hkey Hiat Hexp Hnbf) as (ck & Hissue & Hck).
  eexists ck, _, _. split; [exact Hissue|]. split; [exact Hck|].
  fold iat. change (iat + seven_days) with expiry. fold decoded.
  split.
  { intros k Hk1 Hk2. unfold decoded. now rewrite !lookup_insert_ne by congruence. }
  intros w2 next.
  unfold verifyJWT, jwt_verify. cbv [bind ask Date_now ret].
  rewrite Hkey, String.eqb_refl. cbn [negb].
  unfold not_before, expired, decoded.
  rewrite !lookup_insert_ne by discriminate. rewrite Hnbf, lookup_insert_eq.
  split; intros Hnow.
  - now rewrite (seconds_before _ _ Hnow).
  - now rewrite (seconds_after _ _ Hnow).
Qed.

Lemma session_token_roundtrip_witness :
  let iat := clock (elapse steady sample_world) / 1000 in
  let expiry := iat + 604800 in
  let decoded := <["exp" := VNum expiry]> (<["iat" := VNum iat]> ann_claim) in
  exists ck tok w1,
    post_jwt ann_claim steady sample_world = (Ok (Response 200 (Some ck) (Issued tok)), w1)
    /\ cookie_token ck = tok
    /\ (forall k, k <> "iat" -> k <> "exp" -> decoded !! k = ann_claim !! k)
    /\ forall w2 next,
         let now := clock (elapse steady w2) in
         (now < 1000 * expiry ->
          verifyJWT (Some tok) next steady w2 = next decoded steady (elapse steady w2))
         /\ (1000 * expiry <= now ->
             verifyJWT (Some tok) next steady w2 = (Ok unauthorized, elapse steady w2)).
Proof.
  apply (session_token_roundtrip steady sample_world ann_claim "s3cret"); reflexivity.
Defined.

(** On the sample host the token issued at 1001 ms carries [iat = 1] and
    [exp = 604801]; it is accepted at 604800999 ms and rejected one
    millisecond later. *)
Example session_token_expiry_sample :
  exists ck tok w1,
    post_jwt ann_claim steady sample_world = (Ok (Response 200 (Some ck) (Issued tok)), w1)
    /\ tok = Jws (<["exp" := VNum 604801]> (<["iat" := VNum 1]> ann_claim)) "s3cret"
    /\ fst (jwt_verify tok (JWT_SECRET steady) steady (World sample_store 604800998 7))
       = Ok (inr (<["exp" := VNum 604801]> (<["iat" := VNum 1]> ann_claim)))
    /\ fst (jwt_verify tok (JWT_SECRET steady) steady (World sample_store 604800999 7))
       = Ok (inl TokenExpiredError).
Proof.
  eexists _, _, _. split; [vm_compute; reflexivity|].
  split; [reflexivity|]. split; vm_compute; reflexivity.
Qed.

(** C2, as stated, fails: the claim that comes back is not the claim
    that went in.  Ann's claim has one field; verified one effect after
    it was issued, well before expiry, it has three. *)
Lemma session_token_adds_claims :
  exists ck tok w1 decoded w2,
    post_jwt ann_claim steady sample_world
    = (Ok (Response 200 (Some ck) (Issued tok)), w1)
    /\ jwt_verify tok (JWT_SECRET steady) steady w1 = (Ok (inr decoded), w2)
    /\ decoded !! "exp" = Some (VNum 604801)
    /\ clock w2 < 1000 * 604801
    /\ size ann_claim = 1%nat /\ size decoded = 3%nat
    /\ decoded <> ann_claim.
Proof.
  eexists _, _, _, _, _.
  split; [vm_compute; reflexivity|].
  split; [vm_compute; reflexivity|].
  split; [reflexivity|].
  split; [reflexivity|].
  split; [reflexivity|].
  split; [reflexivity|].
  intros E. apply (f_equal (fun d : doc => d !! "iat")) in E.
  vm_compute in E. discriminate.
Qed.

(** * The side conditions are met by ordinary requests, and are needed *)

(** A claim that brings its own [iat] keeps it: the token is dated by the
    claim, not by the time of issue. *)
Example session_token_keeps_own_iat :
  exists ck w1,
    post_jwt (<["iat" := VNum 5]> ann_claim) steady sample_world
    = (Ok (Response 200 (Some ck)
             (Issued (Jws (<["exp" := VNum 604805]> (<["iat" := VNum 5]> ann_claim))
                          "s3cret"))), w1)
    /\ clock w1 / 1000 <> 5.
Proof. eexists _, _. split; [vm_compute; reflexivity|]. vm_compute. discriminate. Qed.

(** A claim that brings an [exp] is refused by [jwt.sign]: no token is
    issued and the route raises. *)
Example session_token_refuses_exp :
  exists msg,
    post_jwt (<["exp" := VNum 5]> ann_claim) steady sample_world
    = (Throw (SignError msg), sample_world).
Proof. eexists. vm_compute. reflexivity. Qed.

(** A claim that names a future [nbf] is rejected although its token has
    not expired. *)
Example session_token_not_yet_valid :
  exists ck tok w1 w2,
    post_jwt (<["nbf" := VNum 5000]> ann_claim) steady sample_world
    = (Ok (Response 200 (Some ck) (Issued tok)), w1)
    /\ jwt_verify tok (JWT_SECRET steady) steady w1 = (Ok (inl NotBeforeError), w2).
Proof. eexists _, _, _, _. split; vm_compute; reflexivity. Qed.

(** A loan sent without [_id] gets a generated ObjectId, which is truthy. *)
Lemma insert_doc_generated_truthy (loan : doc) c :
  loan !! "_id" = None ->
  exists o,
    insert_doc loan c = (Ok (VOid o), c ++ [<["_id" := VOid o]> loan])
    /\ truthy (Some (VOid o)) = true.
Proof.
  intros H. exists (fresh_ObjectId c). split; [|reflexivity].
  now apply insert_doc_generated.
Qed.

(** A loan sent with the falsy [_id] 0 is stored, but nobody is notified. *)
Example post_loans_falsy_id :
  exists w',
    post_loans (<["_id" := VNum 0]> car_loan) steady sample_world
    = (Ok (Response 200 None (InsertOneResult (VNum 0))), w')
    /\ loans (store w') = [<["_id" := VNum 0]> car_loan]
    /\ notifications (store w') = notifications (store sample_world).
Proof. eexists. split; [vm_compute; reflexivity|]. split; reflexivity. Qed.

(** A status equal to the stored one modifies nothing and notifies nobody. *)
Example updateStatus_same_status :
  exists w',
    updateStatus ann_id "pending" steady sample_world
    = (Ok (Response 200 None (Updated (mkUpdateResult 1 0))), w')
    /\ store w' = store sample_world.
Proof. eexists. split; vm_compute; reflexivity. Qed.
